(** * Marina CSV to F1Tenth map converter: a shallow embedding of
    [parse_marina_to_f_map.py] (class [MarinaMapParser]) and of the reader
    [load_waypoints_data] of [plot_raceline.py].

    Modelling choices:
    - Python [float] values are modelled by real numbers [R]; float literals
      such as [0.7] by their decimal value.  Python's [float(s)] is the
      section variable [float_of_string], [None] standing for [ValueError].
    - Python strings are [string]: one [ascii] per character, read as a
      code point below 256 (the first 256 code points of [str]); list
      indexing [values[i]] is
      [nth_error], [None] standing for [IndexError].
    - The loop of [load_marina_csv] mutates three lists; it is modelled by
      explicit state passing of the three accumulators.
    - File-system effects of [parse]/[main] are a trace of [effect]s. *)

From Stdlib Require Import String Ascii List Arith Lia ZArith Reals Lra Bool.
Import ListNotations.
Open Scope string_scope.

(** ** Option notation (the [try]/[except] of the source) *)
Notation "x <- a ;; b" :=
  (match a with Some x => b | None => None end)
  (at level 60, right associativity).

(** ** Python string helpers *)

(** [str.isspace] on one character: tab to carriage return, the
    separators [U+001C] to [U+001F], space, [U+0085] and [U+00A0]. *)
Definition is_space (c : ascii) : bool :=
  match nat_of_ascii c with
  | 9 | 10 | 11 | 12 | 13 | 28 | 29 | 30 | 31 | 32 | 133 | 160 => true
  | _ => false
  end.

(** [str.isdigit] on one character: the ASCII digits and the superscripts
    [U+00B2], [U+00B3], [U+00B9]. *)
Definition is_digit (c : ascii) : bool :=
  let n := nat_of_ascii c in (Nat.leb 48 n && Nat.leb n 57) ||
  Nat.eqb n 178 || Nat.eqb n 179 || Nat.eqb n 185.

Fixpoint lstrip (s : string) : string :=
  match s with
  | EmptyString => EmptyString
  | String c r => if is_space c then lstrip r else s
  end.

Fixpoint rev_str (s : string) (acc : string) : string :=
  match s with
  | EmptyString => acc
  | String c r => rev_str r (String c acc)
  end.

(** [str.strip()] *)
Definition strip (s : string) : string :=
  rev_str (lstrip (rev_str (lstrip s) EmptyString)) EmptyString.

(** [str.startswith(p)] *)
Definition startswith (p s : string) : bool := String.prefix p s.

(** [any(c.isdigit() for c in s)] *)
Fixpoint any_digit (s : string) : bool :=
  match s with
  | EmptyString => false
  | String c r => is_digit c || any_digit r
  end.

(** [s.split(',')]: the current field is accumulated in reverse. *)
Fixpoint split_aux (sep : ascii) (s : string) (cur : string) : list string :=
  match s with
  | EmptyString => [rev_str cur EmptyString]
  | String c r =>
      if Ascii.eqb c sep then rev_str cur EmptyString :: split_aux sep r EmptyString
      else split_aux sep r (String c cur)
  end.

Definition split (sep : ascii) (s : string) : list string := split_aux sep s EmptyString.

(** ** Row parser: the first loop of [load_marina_csv] *)

(** Decision taken on one stripped line: [true] when it is appended to
    [data_lines]. *)
Definition keep_line (line : string) : bool :=
  if (line =? "") || startswith "#" line then false
  else if startswith "nan" line || negb (any_digit line) then false
  else true.

(** [data_lines]: every line of the file is stripped, then filtered. *)
Definition data_lines (file_lines : list string) : list string :=
  filter keep_line (map strip file_lines).

(** [values = [v.strip() for v in line.split(',')]] *)
Definition row_values (line : string) : list string :=
  map strip (split "," line).

Close Scope string_scope.

(** ** Column map ([self.column_mapping]) *)

Inductive col_key :=
| Rl_x_m | Rl_y_m | Rl_vx_mps | Rl_psi_rad | Rl_ax_mps2 | Rl_n_m
| Ref_rl_s_m | Ref_rl_x_m | Ref_rl_y_m | Ref_rl_psi_rad | Ref_rl_kappa_radpm
| Ref_rl_d_right | Ref_rl_d_left
| Ref_cl_s_m | Ref_cl_x_m | Ref_cl_y_m | Ref_cl_psi_rad | Ref_cl_kappa_radpm
| Ref_cl_d_right | Ref_cl_d_left
| Tb_left_x | Tb_left_y | Tb_right_x | Tb_right_y.

Definition column_mapping (k : col_key) : nat :=
  match k with
  | Rl_x_m => 0 | Rl_y_m => 1 | Rl_vx_mps => 3 | Rl_psi_rad => 5
  | Rl_ax_mps2 => 6 | Rl_n_m => 4
  | Ref_rl_s_m => 11 | Ref_rl_x_m => 12 | Ref_rl_y_m => 13
  | Ref_rl_psi_rad => 15 | Ref_rl_kappa_radpm => 18
  | Ref_rl_d_right => 21 | Ref_rl_d_left => 22
  | Ref_cl_s_m => 26 | Ref_cl_x_m => 27 | Ref_cl_y_m => 28
  | Ref_cl_psi_rad => 30 | Ref_cl_kappa_radpm => 33
  | Ref_cl_d_right => 36 | Ref_cl_d_left => 37
  | Tb_left_x => 41 | Tb_left_y => 42 | Tb_right_x => 44 | Tb_right_y => 45
  end.

(** The column group (reference parameterization) a key belongs to, read
    off the key names and the CSV header comment ([*_rl_*], [*_ref_rl_*],
    [*_ref_cl_*], [tb_*]). *)
Inductive col_group := RawRacingLine | RefRacingLine | RefCenterline | TrackBounds.

Definition key_group (k : col_key) : col_group :=
  match k with
  | Rl_x_m | Rl_y_m | Rl_vx_mps | Rl_psi_rad | Rl_ax_mps2 | Rl_n_m => RawRacingLine
  | Ref_rl_s_m | Ref_rl_x_m | Ref_rl_y_m | Ref_rl_psi_rad | Ref_rl_kappa_radpm
  | Ref_rl_d_right | Ref_rl_d_left => RefRacingLine
  | Ref_cl_s_m | Ref_cl_x_m | Ref_cl_y_m | Ref_cl_psi_rad | Ref_cl_kappa_radpm
  | Ref_cl_d_right | Ref_cl_d_left => RefCenterline
  | Tb_left_x | Tb_left_y | Tb_right_x | Tb_right_y => TrackBounds
  end.

(** ** Waypoints *)

Record waypoint := mk_waypoint {
  id : nat;
  s_m : R;
  d_m : R;
  x_m : R;
  y_m : R;
  d_right : R;
  d_left : R;
  psi_rad : R;
  kappa_radpm : R;
  vx_mps : R;
  ax_mps2 : R
}.

Section Converter.

(** Python's [float(s)]: [None] is a [ValueError]. *)
Variable float_of_string : string -> option R.

(** [float(values[self.column_mapping[k]])] *)
Definition column_value (values : list string) (k : col_key) : option R :=
  v <- nth_error values (column_mapping k) ;;
  float_of_string v.

Definition create_centerline_waypoint (values : list string) (waypoint_id : nat)
  : option waypoint :=
  x <- column_value values Ref_cl_x_m ;;
  y <- column_value values Ref_cl_y_m ;;
  s <- column_value values Ref_cl_s_m ;;
  psi <- column_value values Ref_cl_psi_rad ;;
  kappa <- column_value values Ref_cl_kappa_radpm ;;
  dr <- column_value values Ref_cl_d_right ;;
  dl <- column_value values Ref_cl_d_left ;;
  rl_vx <- column_value values Rl_vx_mps ;;
  rl_ax <- column_value values Rl_ax_mps2 ;;
  let vx := (rl_vx * 0.7)%R in
  let ax := (rl_ax * 0.5)%R in
  Some (mk_waypoint waypoint_id s 0 x y dr dl psi kappa vx ax).

Definition create_iqp_waypoint (values : list string) (waypoint_id : nat)
  (speed_factor : R) : option waypoint :=
  x <- column_value values Rl_x_m ;;
  y <- column_value values Rl_y_m ;;
  psi <- column_value values Rl_psi_rad ;;
  rl_vx <- column_value values Rl_vx_mps ;;
  let vx := (rl_vx * speed_factor)%R in
  ax <- column_value values Rl_ax_mps2 ;;
  s <- column_value values Ref_rl_s_m ;;
  kappa <- column_value values Ref_rl_kappa_radpm ;;
  dr <- column_value values Ref_rl_d_right ;;
  dl <- column_value values Ref_rl_d_left ;;
  Some (mk_waypoint waypoint_id s 0 x y dr dl psi kappa vx ax).

Definition create_sp_waypoint (values : list string) (waypoint_id : nat)
  : option waypoint :=
  s <- column_value values Ref_rl_s_m ;;
  x <- column_value values Ref_rl_x_m ;;
  y <- column_value values Ref_rl_y_m ;;
  psi <- column_value values Ref_rl_psi_rad ;;
  kappa <- column_value values Ref_rl_kappa_radpm ;;
  dr <- column_value values Ref_rl_d_right ;;
  dl <- column_value values Ref_rl_d_left ;;
  rl_vx <- column_value values Rl_vx_mps ;;
  rl_ax <- column_value values Rl_ax_mps2 ;;
  let vx := (rl_vx * 0.85)%R in
  let ax := (rl_ax * 0.8)%R in
  Some (mk_waypoint waypoint_id s 0 x y dr dl psi kappa vx ax).

(** The second loop of [load_marina_csv]: the three lists are appended to in
    order inside one [try]; a failure skips the rest of the row only. *)
Fixpoint convert_rows (rows : list (list string))
  (cl iqp sp : list waypoint) : list waypoint * list waypoint * list waypoint :=
  match rows with
  | [] => (cl, iqp, sp)
  | values :: rest =>
      match create_centerline_waypoint values (List.length cl) with
      | None => convert_rows rest cl iqp sp
      | Some w1 =>
          let cl' := cl ++ [w1] in
          match create_iqp_waypoint values (List.length iqp) 1 with
          | None => convert_rows rest cl' iqp sp
          | Some w2 =>
              let iqp' := iqp ++ [w2] in
              match create_sp_waypoint values (List.length sp) with
              | None => convert_rows rest cl' iqp' sp
              | Some w3 => convert_rows rest cl' iqp' (sp ++ [w3])
              end
          end
      end
  end.

(** [load_marina_csv]: returns [(centerline, iqp, sp)]. *)
Definition load_marina_csv (file_lines : list string)
  : list waypoint * list waypoint * list waypoint :=
  convert_rows (map row_values (data_lines file_lines)) [] [] [].

End Converter.

(** ** Python helpers on lists *)

(** [enumerate(l)] starting from [n]. *)
Fixpoint enumerate_from {A} (n : nat) (l : list A) : list (nat * A) :=
  match l with
  | [] => []
  | x :: r => (n, x) :: enumerate_from (S n) r
  end.

(** [l[::k]] for [k > 0]: the elements whose index is a multiple of [k]. *)
Definition slice_step {A} (k : nat) (l : list A) : list A :=
  map snd (filter (fun p => Nat.eqb (fst p mod k) 0)
                  (combine (seq 0 (List.length l)) l)).

(** [max(l)] and [min(l)]: [None] is the [ValueError] of an empty sequence. *)
Definition py_max (l : list R) : option R :=
  match l with
  | [] => None
  | x :: r => Some (fold_left Rmax r x)
  end.

Definition py_min (l : list R) : option R :=
  match l with
  | [] => None
  | x :: r => Some (fold_left Rmin r x)
  end.

(** ** JSON / YAML documents as value trees *)

Local Set Warnings "-register-all".

Inductive json :=
| JNull
| JBool (b : bool)
| JInt (z : Z)
| JNum (r : R)
| JStr (s : string)
| JArr (l : list json)
| JObj (fields : list (string * json)).

Fixpoint assoc (k : string) (l : list (string * json)) : option json :=
  match l with
  | [] => None
  | (k', v) :: r => if String.eqb k k' then Some v else assoc k r
  end.

(** [d[k]]: [None] is a [KeyError] (or a [TypeError] on a non-dict). *)
Definition json_get (j : json) (k : string) : option json :=
  match j with
  | JObj l => assoc k l
  | _ => None
  end.

Definition json_num (j : json) (k : string) : option R :=
  match json_get j k with
  | Some (JNum r) => Some r
  | _ => None
  end.

Definition json_int (j : json) (k : string) : option Z :=
  match json_get j k with
  | Some (JInt z) => Some z
  | _ => None
  end.

Definition json_bool (j : json) (k : string) : option bool :=
  match json_get j k with
  | Some (JBool b) => Some b
  | _ => None
  end.

(** ** [create_waypoint_array] *)

Definition zero_stamp : json :=
  JObj [("secs", JInt 0); ("nsecs", JInt 0)]%string.

Definition wpnt_msg (wp : waypoint) : json :=
  JObj [("id", JInt (Z.of_nat (id wp)));
        ("s_m", JNum (s_m wp));
        ("d_m", JNum (d_m wp));
        ("x_m", JNum (x_m wp));
        ("y_m", JNum (y_m wp));
        ("d_right", JNum (d_right wp));
        ("d_left", JNum (d_left wp));
        ("psi_rad", JNum (psi_rad wp));
        ("kappa_radpm", JNum (kappa_radpm wp));
        ("vx_mps", JNum (vx_mps wp));
        ("ax_mps2", JNum (ax_mps2 wp))]%string.

Definition create_waypoint_array (waypoints : list waypoint) : json :=
  JObj [("header", JObj [("seq", JInt 1); ("stamp", zero_stamp);
                         ("frame_id", JStr "")]);
        ("wpnts", JArr (map wpnt_msg waypoints))]%string.

(** ** Visualization markers *)

Record color := mk_color { c_r : R; c_g : R; c_b : R; c_a : R }.

Record marker := mk_marker {
  m_ns : string;
  m_id : nat;
  m_type : nat;
  m_x : R;
  m_y : R;
  m_scale : R;
  m_color : color
}.

Definition marker_json (m : marker) : json :=
  JObj [("header", JObj [("seq", JInt 0); ("stamp", zero_stamp);
                         ("frame_id", JStr "map")]);
        ("ns", JStr (m_ns m));
        ("id", JInt (Z.of_nat (m_id m)));
        ("type", JInt (Z.of_nat (m_type m)));
        ("action", JInt 0);
        ("pose", JObj [("position", JObj [("x", JNum (m_x m)); ("y", JNum (m_y m));
                                          ("z", JInt 0)]);
                       ("orientation", JObj [("x", JInt 0); ("y", JInt 0);
                                             ("z", JInt 0); ("w", JInt 1)])]);
        ("scale", JObj [("x", JNum (m_scale m)); ("y", JNum (m_scale m));
                        ("z", JNum (m_scale m))]);
        ("color", JObj [("r", JNum (c_r (m_color m))); ("g", JNum (c_g (m_color m)));
                        ("b", JNum (c_b (m_color m))); ("a", JNum (c_a (m_color m)))]);
        ("lifetime", zero_stamp);
        ("frame_locked", JBool false);
        ("points", JArr []);
        ("colors", JArr []);
        ("text", JStr "");
        ("mesh_resource", JStr "");
        ("mesh_use_embedded_materials", JBool false)]%string.

Definition markers_json (ms : list marker) : json :=
  JObj [("markers", JArr (map marker_json ms))]%string.

Definition create_waypoint_markers (waypoints : list waypoint) (c : color)
  : list marker :=
  let sample_rate := Nat.max 1 (List.length waypoints / 500) in
  map (fun p => mk_marker "" (fst p) 2 (x_m (snd p)) (y_m (snd p)) 0.05 c)
      (enumerate_from 0 (slice_step sample_rate waypoints)).

Inductive side := Left | Right.

Definition side_name (sd : side) : string :=
  match sd with Left => "left" | Right => "right" end%string.

(** [boundary_x], [boundary_y] of [create_trackbounds_markers]. *)
Definition boundary_position (sd : side) (wp : waypoint) : R * R :=
  match sd with
  | Left => (x_m wp + d_left wp * (-1) * sin (psi_rad wp),
             y_m wp + d_left wp * cos (psi_rad wp))%R
  | Right => (x_m wp + d_right wp * sin (psi_rad wp),
              y_m wp + d_right wp * (-1) * cos (psi_rad wp))%R
  end.

Definition trackbounds_color : color := mk_color 1 0.5 0 0.7.

Definition side_markers (sample_rate : nat) (waypoints : list waypoint) (sd : side)
  : list marker :=
  map (fun p =>
         let '(bx, by_) := boundary_position sd (snd p) in
         let marker_id := match sd with Left => fst p | Right => fst p + 1000 end in
         mk_marker ("trackbounds_" ++ side_name sd)%string marker_id 1 bx by_ 0.1
                   trackbounds_color)
      (enumerate_from 0 (slice_step sample_rate waypoints)).

Definition create_trackbounds_markers (waypoints : list waypoint) : list marker :=
  let sample_rate := Nat.max 1 (List.length waypoints / 200) in
  flat_map (side_markers sample_rate waypoints) [Left; Right].

(** ** Auxiliary YAML documents *)

Definition create_map_yaml (output_map_name : string) (waypoints : list waypoint)
  : option json :=
  min_x <- py_min (map x_m waypoints) ;;
  _max_x <- py_max (map x_m waypoints) ;;
  min_y <- py_min (map y_m waypoints) ;;
  _max_y <- py_max (map y_m waypoints) ;;
  let padding := 5.0%R in
  let origin_x := (min_x - padding)%R in
  let origin_y := (min_y - padding)%R in
  Some (JObj [("free_thresh", JNum 0.196);
              ("image", JStr (output_map_name ++ ".png"));
              ("negate", JInt 0);
              ("occupied_thresh", JNum 0.65);
              ("origin", JArr [JNum origin_x; JNum origin_y; JInt 0]);
              ("resolution", JNum 0.05000000074505806)])%string.

Definition create_ot_sectors_yaml (waypoints : list waypoint) : json :=
  let total_waypoints := Z.of_nat (List.length waypoints) in
  JObj [("n_sectors", JInt 2);
        ("yeet_factor", JNum 1.25);
        ("spline_len", JInt 30);
        ("ot_sector_begin", JNum 0.5);
        ("Overtaking_sector0",
           JObj [("start", JInt 0);
                 ("end", JInt (total_waypoints / 2));
                 ("ot_flag", JBool false)]);
        ("Overtaking_sector1",
           JObj [("start", JInt (total_waypoints / 2 + 1));
                 ("end", JInt (total_waypoints - 1));
                 ("ot_flag", JBool false)])]%string.

Definition create_speed_scaling_yaml (waypoints : list waypoint) : json :=
  let total_waypoints := Z.of_nat (List.length waypoints) in
  JObj [("global_limit", JNum 0.5);
        ("n_sectors", JInt 1);
        ("Sector0", JObj [("start", JInt 0);
                          ("end", JInt (total_waypoints - 1));
                          ("scaling", JNum 0.5);
                          ("only_FTG", JBool false);
                          ("no_FTG", JBool false)])]%string.

(** ** [create_global_waypoints_json]: [None] is the [ValueError] raised by
    [max] over an empty trajectory.  The f-string [map_info_str] is kept as
    the list of the four numbers it formats. *)
Definition create_global_waypoints_json
  (centerline_waypoints iqp_waypoints sp_waypoints : list waypoint) : option json :=
  let centerline_array := create_waypoint_array centerline_waypoints in
  let iqp_array := create_waypoint_array iqp_waypoints in
  let sp_array := create_waypoint_array sp_waypoints in
  let lap_time := 108.68526373056437%R in
  iqp_max_speed <- py_max (map vx_mps iqp_waypoints) ;;
  sp_max_speed <- py_max (map vx_mps sp_waypoints) ;;
  let iqp_lap_time := lap_time in
  let sp_lap_time := (lap_time * 1.08)%R in
  let centerline_markers :=
    create_waypoint_markers centerline_waypoints (mk_color 0 0 1 1) in
  let iqp_markers := create_waypoint_markers iqp_waypoints (mk_color 1 0 0 1) in
  let sp_markers := create_waypoint_markers sp_waypoints (mk_color 0 1 0 1) in
  let trackbounds_markers := create_trackbounds_markers iqp_waypoints in
  Some (JObj
    [("map_info_str", JObj [("data", JArr [JNum iqp_lap_time; JNum iqp_max_speed;
                                           JNum sp_lap_time; JNum sp_max_speed])]);
     ("est_lap_time", JObj [("data", JNum sp_lap_time)]);
     ("centerline_markers", markers_json centerline_markers);
     ("centerline_waypoints", centerline_array);
     ("global_traj_markers_iqp", markers_json iqp_markers);
     ("global_traj_wpnts_iqp", iqp_array);
     ("global_traj_markers_sp", markers_json sp_markers);
     ("global_traj_wpnts_sp", sp_array);
     ("trackbounds_markers", markers_json trackbounds_markers)])%string.

(** ** [parse] and [main]: the observable effects *)

Inductive effect :=
| Report_error
| Report_warning
| Make_dir
| Write_file (path : string) (content : json)
| Copy_image.

Inductive outcome := Returned (b : bool) | Raised.

Section Run.

Variable float_of_string : string -> option R.

(** [MarinaMapParser(csv_file, output_map_name).parse()]; [source_image_exists]
    is the test [os.path.exists(source_image)]. *)
Definition parse (output_map_name : string) (file_lines : list string)
  (source_image_exists : bool) : list effect * outcome :=
  let '(centerline, iqp, sp) := load_marina_csv float_of_string file_lines in
  match centerline with
  | [] => ([Report_error], Returned false)
  | _ :: _ =>
      match create_global_waypoints_json centerline iqp sp with
      | None => ([Make_dir], Raised)
      | Some global_waypoints =>
          match create_map_yaml output_map_name centerline with
          | None => ([Make_dir; Write_file "global_waypoints.json" global_waypoints],
                     Raised)
          | Some map_config =>
              (([Make_dir;
                Write_file "global_waypoints.json" global_waypoints;
                Write_file (output_map_name ++ ".yaml") map_config;
                Write_file "ot_sectors.yaml" (create_ot_sectors_yaml centerline);
                Write_file "speed_scaling.yaml" (create_speed_scaling_yaml centerline)]
               ++ (if source_image_exists then [Copy_image] else [Report_warning]))%list,
               Returned true)
          end
      end
  end%string.

(** [main()] followed by [exit(main())]: the effects and the exit status. *)
Definition main (output_map_name : string) (csv_exists : bool)
  (file_lines : list string) (source_image_exists : bool) : list effect * Z :=
  if negb csv_exists then ([Report_error], 1%Z)
  else
    let '(effs, out) := parse output_map_name file_lines source_image_exists in
    match out with
    | Returned true => (effs, 0%Z)
    | Returned false => (effs, 1%Z)
    | Raised => ((effs ++ [Report_error])%list, 1%Z)
    end.

End Run.

(** ** [load_waypoints_data] of [plot_raceline.py] *)

Definition wpnts_of (block : json) : option (list json) :=
  match json_get block "wpnts"%string with
  | Some (JArr l) => Some l
  | _ => None
  end.

Definition load_waypoints_data (data : json)
  : option (list json * list json * list json) :=
  cb <- json_get data "centerline_waypoints"%string ;;
  centerline_waypoints <- wpnts_of cb ;;
  ib <- json_get data "global_traj_wpnts_iqp"%string ;;
  iqp_waypoints <- wpnts_of ib ;;
  sb <- json_get data "global_traj_wpnts_sp"%string ;;
  sp_waypoints <- wpnts_of sb ;;
  Some (centerline_waypoints, iqp_waypoints, sp_waypoints).

(** The fields the plotting utility reads from one waypoint. *)
Definition plotted_fields (wp : json) : option R * option R * option R * option R :=
  (json_num wp "x_m", json_num wp "y_m", json_num wp "vx_mps", json_num wp "s_m")%string.

(** ** A concrete [float] for test inputs: non-empty decimal digit strings. *)

Fixpoint digits_value (s : string) (acc : nat) : option nat :=
  match s with
  | EmptyString => Some acc
  | String c r =>
      if is_digit c then digits_value r (acc * 10 + (nat_of_ascii c - 48))
      else None
  end.

Definition dec_float (s : string) : option R :=
  match s with
  | EmptyString => None
  | _ => match digits_value s 0 with Some n => Some (INR n) | None => None end
  end.

(** Decimal rendering of a natural number, for test rows. *)
Fixpoint digits_rev (fuel n : nat) : string :=
  match fuel with
  | 0 => EmptyString
  | S f =>
      String (ascii_of_nat (48 + n mod 10))
             (if Nat.eqb (n / 10) 0 then EmptyString else digits_rev f (n / 10))
  end.

Definition nat_to_string (n : nat) : string := rev_str (digits_rev (S n) n) EmptyString.

(** The test row whose column [i] holds the number [i]: a waypoint built from
    it shows, in each field, the column the field was read from. *)
Definition index_row (n : nat) : list string := map nat_to_string (seq 0 n).

(** [",1"] repeated [n] times, for test lines. *)
Fixpoint more_ones (n : nat) : string :=
  match n with
  | 0 => EmptyString
  | S k => String ","%char (String "1"%char (more_ones k))
  end.

(** A 46-column line whose first column (raw racing line x) is not a number. *)
Definition bad_rl_x_line : string := ("x1" ++ more_ones 45)%string.

(** A 46-column line of ones. *)
Definition ones_line : string := ("1" ++ more_ones 45)%string.

(** ** Derived notions used in the statements *)

(** A row is valid when all three waypoints can be built from it. *)
Definition row_valid (float_of_string : string -> option R) (values : list string) : bool :=
  match create_centerline_waypoint float_of_string values 0,
        create_iqp_waypoint float_of_string values 0 1,
        create_sp_waypoint float_of_string values 0 with
  | Some _, Some _, Some _ => true
  | _, _, _ => false
  end.

Inductive variant := Centerline | Iqp | Sp.

Definition create_waypoint (float_of_string : string -> option R) (v : variant)
  (values : list string) (n : nat) : option waypoint :=
  match v with
  | Centerline => create_centerline_waypoint float_of_string values n
  | Iqp => create_iqp_waypoint float_of_string values n 1
  | Sp => create_sp_waypoint float_of_string values n
  end.

Inductive geo_field := F_s | F_x | F_y | F_psi | F_kappa | F_d_left | F_d_right.

Definition geo_value (f : geo_field) (wp : waypoint) : R :=
  match f with
  | F_s => s_m wp | F_x => x_m wp | F_y => y_m wp | F_psi => psi_rad wp
  | F_kappa => kappa_radpm wp | F_d_left => d_left wp | F_d_right => d_right wp
  end.

(** Sectors of the overtaking document: [(start, end, ot_flag)]. *)
Definition ot_sector (doc : json) (name : string) : option (Z * Z * bool) :=
  sec <- json_get doc name ;;
  st <- json_int sec "start"%string ;;
  en <- json_int sec "end"%string ;;
  fl <- json_bool sec "ot_flag"%string ;;
  Some (st, en, fl).

(** Claim C4 as stated: a stripped line is skipped exactly when it is empty, starts
    with '#' or has no digit. *)
Definition C4_claim : Prop :=
  forall line : string,
    keep_line line = false <->
    (line = ""%string \/ startswith "#" line = true \/ any_digit line = false).

(** The column key each [create_*] function reads for a geometric field. *)
Definition field_key (v : variant) (gf : geo_field) : col_key :=
  match v, gf with
  | Centerline, F_s => Ref_cl_s_m | Centerline, F_x => Ref_cl_x_m
  | Centerline, F_y => Ref_cl_y_m | Centerline, F_psi => Ref_cl_psi_rad
  | Centerline, F_kappa => Ref_cl_kappa_radpm | Centerline, F_d_left => Ref_cl_d_left
  | Centerline, F_d_right => Ref_cl_d_right
  | Iqp, F_s => Ref_rl_s_m | Iqp, F_x => Rl_x_m | Iqp, F_y => Rl_y_m
  | Iqp, F_psi => Rl_psi_rad | Iqp, F_kappa => Ref_rl_kappa_radpm
  | Iqp, F_d_left => Ref_rl_d_left | Iqp, F_d_right => Ref_rl_d_right
  | Sp, F_s => Ref_rl_s_m | Sp, F_x => Ref_rl_x_m | Sp, F_y => Ref_rl_y_m
  | Sp, F_psi => Ref_rl_psi_rad | Sp, F_kappa => Ref_rl_kappa_radpm
  | Sp, F_d_left => Ref_rl_d_left | Sp, F_d_right => Ref_rl_d_right
  end.

(** The column group of each geometric field, per variant, as the code has it:
    the IQP waypoint takes its position and heading from the raw racing line
    and the rest from the reference racing line. *)
Definition field_group (v : variant) (gf : geo_field) : col_group :=
  match v, gf with
  | Centerline, _ => RefCenterline
  | Sp, _ => RefRacingLine
  | Iqp, (F_x | F_y | F_psi) => RawRacingLine
  | Iqp, _ => RefRacingLine
  end.

(** Claim C3 as stated: all geometric fields of a waypoint come from columns
    of one group. *)
Definition C3_claim : Prop :=
  forall (f : string -> option R) v values n wp,
    create_waypoint f v values n = Some wp ->
    exists g, forall gf, exists k,
      key_group k = g /\ column_value f values k = Some (geo_value gf wp).

(** Claim C6 as stated: two contiguous sectors [0, e0] and [e0 + 1, N - 1],
    both not overtaking, of equal size. *)
Definition C6_claim : Prop :=
  forall wps : list waypoint, 1 <= List.length wps ->
    let doc := create_ot_sectors_yaml wps in
    exists e0 s1 e1,
      ot_sector doc "Overtaking_sector0"%string = Some (0%Z, e0, false) /\
      ot_sector doc "Overtaking_sector1"%string = Some (s1, e1, false) /\
      s1 = (e0 + 1)%Z /\ e1 = (Z.of_nat (List.length wps) - 1)%Z /\
      (e0 - 0 = e1 - s1)%Z.

Definition wp_zero : waypoint := mk_waypoint 0 0 0 0 0 0 0 0 0 0 0.

(** ** More of [plot_raceline.py] *)

(** Python's [float(v)] on a decoded JSON value. *)
Definition py_float (float_of_string : string -> option R) (j : json) : option R :=
  match j with
  | JNum r => Some r
  | JInt z => Some (IZR z)
  | JBool b => Some (if b then 1%R else 0%R)
  | JStr s => float_of_string s
  | JNull | JArr _ | JObj _ => None
  end.

(** The guard and the two [float] conversions of one loop iteration of
    [extract_trackbounds_coordinates]: [None] when the marker is skipped
    (failed guard, or an exception caught by the [except]). *)
Definition marker_point (float_of_string : string -> option R) (marker : json)
  : option (side * R * R) :=
  match marker with
  | JObj _ =>
      match json_get marker "ns"%string with
      | Some (JStr ns) =>
          let sd := if String.eqb ns "trackbounds_left" then Some Left
                    else if String.eqb ns "trackbounds_right" then Some Right
                    else None in
          match sd, json_get marker "pose"%string with
          | Some sd, Some (JObj _ as pose) =>
              match json_get pose "position"%string with
              | Some (JObj _ as position) =>
                  match json_get position "x"%string, json_get position "y"%string with
                  | Some xj, Some yj =>
                      x <- py_float float_of_string xj ;;
                      y <- py_float float_of_string yj ;;
                      Some (sd, x, y)
                  | _, _ => None
                  end
              | _ => None
              end
          | _, _ => None
          end
      | _ => None
      end
  | _ => None
  end.

(** The loop of [extract_trackbounds_coordinates], appending to the four
    lists. *)
Fixpoint extract_trackbounds_loop (float_of_string : string -> option R)
  (markers : list json) (lx ly rx ry : list R) : list R * list R * list R * list R :=
  match markers with
  | [] => (lx, ly, rx, ry)
  | m :: rest =>
      match marker_point float_of_string m with
      | Some (Left, x, y) =>
          extract_trackbounds_loop float_of_string rest (lx ++ [x]) (ly ++ [y]) rx ry
      | Some (Right, x, y) =>
          extract_trackbounds_loop float_of_string rest lx ly (rx ++ [x]) (ry ++ [y])
      | None => extract_trackbounds_loop float_of_string rest lx ly rx ry
      end
  end.

Definition extract_trackbounds_coordinates (float_of_string : string -> option R)
  (markers : list json) : list R * list R * list R * list R :=
  extract_trackbounds_loop float_of_string markers [] [] [] [].

(** [sep.join(fields)], to state what [split] keeps of a line. *)
Fixpoint join (sep : ascii) (fields : list string) : string :=
  match fields with
  | [] => EmptyString
  | [f] => f
  | f :: rest => (f ++ String sep (join sep rest))%string
  end.

(** [s.count(c)] for one character. *)
Fixpoint count_char (c : ascii) (s : string) : nat :=
  match s with
  | EmptyString => 0
  | String d r => (if Ascii.eqb d c then 1 else 0) + count_char c r
  end.

(** The paths of the [Write_file] effects of a run, in order. *)
Definition written_paths (effs : list effect) : list string :=
  flat_map (fun e => match e with Write_file p _ => [p] | _ => [] end) effs.

(** Whether a [create_*] call returns instead of raising. *)
Definition is_some {A} (o : option A) : bool :=
  match o with Some _ => true | None => false end.

(** ** Proof automation *)

(** Peel the [x <- column_value .. ;; ..] chain of a [create_*] function. *)
Ltac peel_options :=
  repeat match goal with
  | H : context [match ?e with Some _ => _ | None => _ end] |- _ =>
      let E := fresh "E" in destruct e eqn:E; [|discriminate]
  end.

(** ** General lemmas *)

Lemma convert_rows_lengths (f : string -> option R) rows cl iqp sp :
  List.length sp <= List.length iqp <= List.length cl ->
  let '(cl', iqp', sp') := convert_rows f rows cl iqp sp in
  List.length sp' <= List.length iqp' <= List.length cl'.
Proof.
  revert cl iqp sp; induction rows as [|values rest IH]; intros cl iqp sp Hlen;
    simpl; [exact Hlen|].
  destruct (create_centerline_waypoint f values (List.length cl));
    [|apply IH; exact Hlen].
  destruct (create_iqp_waypoint f values (List.length iqp) 1);
    [|apply IH; rewrite length_app; simpl; lia].
  destruct (create_sp_waypoint f values (List.length sp));
    apply IH; rewrite ?length_app; simpl; lia.
Qed.

Lemma convert_rows_ids (f : string -> option R) rows cl iqp sp :
  map id cl = seq 0 (List.length cl) ->
  map id iqp = seq 0 (List.length iqp) ->
  map id sp = seq 0 (List.length sp) ->
  let '(cl', iqp', sp') := convert_rows f rows cl iqp sp in
  map id cl' = seq 0 (List.length cl') /\ map id iqp' = seq 0 (List.length iqp') /\
  map id sp' = seq 0 (List.length sp').
Proof.
  assert (Hstep : forall (l : list waypoint) w,
    map id l = seq 0 (List.length l) -> id w = List.length l ->
    map id (l ++ [w]) = seq 0 (List.length (l ++ [w]))).
  { intros l w Hl Hw. rewrite map_app, Hl, length_app, seq_app. simpl.
    rewrite Hw. reflexivity. }
  revert cl iqp sp; induction rows as [|values rest IH]; intros cl iqp sp Hc Hi Hs;
    simpl; [auto|].
  destruct (create_centerline_waypoint f values (List.length cl)) as [w1|] eqn:E1;
    [|apply IH; assumption].
  assert (Hid1 : id w1 = List.length cl).
  { unfold create_centerline_waypoint in E1; peel_options; inversion E1; reflexivity. }
  destruct (create_iqp_waypoint f values (List.length iqp) 1) as [w2|] eqn:E2;
    [|apply IH; [apply Hstep|..]; assumption].
  assert (Hid2 : id w2 = List.length iqp).
  { unfold create_iqp_waypoint in E2; peel_options; inversion E2; reflexivity. }
  destruct (create_sp_waypoint f values (List.length sp)) as [w3|] eqn:E3;
    [|apply IH; [apply Hstep|apply Hstep|]; assumption].
  assert (Hid3 : id w3 = List.length sp).
  { unfold create_sp_waypoint in E3; peel_options; inversion E3; reflexivity. }
  apply IH; apply Hstep; assumption.
Qed.

Lemma keep_line_spec (line : string) :
  keep_line line = true <->
  line <> ""%string /\ startswith "#" line = false /\
  startswith "nan" line = false /\ any_digit line = true.
Proof.
  unfold keep_line.
  destruct (String.eqb_spec line "") as [->|Hne]; simpl.
  - split; [discriminate|intros [H _]; congruence].
  - destruct (startswith "#" line); simpl;
      [split; [discriminate|intros (_ & H & _); discriminate]|].
    destruct (startswith "nan" line); simpl;
      [split; [discriminate|intros (_ & _ & H & _); discriminate]|].
    destruct (any_digit line); simpl; intuition congruence.
Qed.

(** ** Claims *)

(** C1: for a valid row, the speed and acceleration targets are the raw
    racing-line speed and acceleration (columns [rl_vx_mps], [rl_ax_mps2])
    scaled by 0.70 and 0.50 (centerline), 0.85 and 0.80 (SP), and taken
    unscaled (IQP). *)
Theorem C1_speed_accel_scaling (f : string -> option R) (values : list string)
  (n1 n2 n3 : nat) (wcl wiqp wsp : waypoint)
  (Hcl : create_centerline_waypoint f values n1 = Some wcl)
  (Hiqp : create_iqp_waypoint f values n2 1 = Some wiqp)
  (Hsp : create_sp_waypoint f values n3 = Some wsp) :
  exists raw_v raw_a,
    column_value f values Rl_vx_mps = Some raw_v /\
    column_value f values Rl_ax_mps2 = Some raw_a /\
    vx_mps wcl = (raw_v * 0.7)%R /\ ax_mps2 wcl = (raw_a * 0.5)%R /\
    vx_mps wsp = (raw_v * 0.85)%R /\ ax_mps2 wsp = (raw_a * 0.8)%R /\
    vx_mps wiqp = raw_v /\ ax_mps2 wiqp = raw_a.
Proof.
  unfold create_centerline_waypoint in Hcl; peel_options.
  unfold create_iqp_waypoint in Hiqp; peel_options.
  unfold create_sp_waypoint in Hsp; peel_options.
  inversion Hcl; inversion Hiqp; inversion Hsp; subst; simpl; clear Hcl Hiqp Hsp.
  repeat match goal with
  | H : Some _ = Some _ |- _ => injection H as H; subst
  end.
  do 2 eexists; repeat split; try eassumption; try reflexivity.
  apply Rmult_1_r.
Qed.

Lemma C1_speed_accel_scaling_witness :
  exists wcl wiqp wsp,
    create_centerline_waypoint dec_float (index_row 46) 0 = Some wcl /\
    create_iqp_waypoint dec_float (index_row 46) 0 1 = Some wiqp /\
    create_sp_waypoint dec_float (index_row 46) 0 = Some wsp /\
    exists raw_v raw_a,
      column_value dec_float (index_row 46) Rl_vx_mps = Some raw_v /\
      column_value dec_float (index_row 46) Rl_ax_mps2 = Some raw_a /\
      vx_mps wcl = (raw_v * 0.7)%R /\ ax_mps2 wcl = (raw_a * 0.5)%R /\
      vx_mps wsp = (raw_v * 0.85)%R /\ ax_mps2 wsp = (raw_a * 0.8)%R /\
      vx_mps wiqp = raw_v /\ ax_mps2 wiqp = raw_a.
Proof.
  do 3 eexists.
  split; [reflexivity|]. split; [reflexivity|]. split; [reflexivity|].
  eapply (C1_speed_accel_scaling dec_float (index_row 46) 0 0 0);
    reflexivity.
Defined.

(** C2 (code_bug): on a file whose first data line has a non-numeric raw
    racing-line [x] and whose second line is all ones, the centerline list
    keeps the first line (ids 0 and 1) while the IQP and SP lists only hold
    the second one: the three lists have different lengths. *)
Theorem C2_lists_desync :
  let '(cl, iqp, sp) := load_marina_csv dec_float [bad_rl_x_line; ones_line] in
  map id cl = [0; 1] /\ map id iqp = [0] /\ map id sp = [0] /\
  List.length cl <> List.length iqp.
Proof.
  vm_compute. repeat split; discriminate.
Qed.

(** Ids are dense in each list (the part of C2 the code does meet). *)
Lemma load_marina_csv_ids (f : string -> option R) (file_lines : list string) :
  let '(cl, iqp, sp) := load_marina_csv f file_lines in
  map id cl = seq 0 (List.length cl) /\ map id iqp = seq 0 (List.length iqp) /\
  map id sp = seq 0 (List.length sp).
Proof.
  unfold load_marina_csv. apply convert_rows_ids; reflexivity.
Qed.

(** C4: the line ["nan,1"] has a digit, is not empty and is no comment, yet it
    is skipped. *)
Lemma C4_nan_prefix_counterexample : ~ C4_claim.
Proof.
  intros H. specialize (H "nan,1"%string).
  assert (Hk : keep_line "nan,1"%string = false) by reflexivity.
  apply H in Hk. destruct Hk as [Hk|[Hk|Hk]]; discriminate.
Qed.

(** C10: the lists returned by [load_marina_csv] satisfy
    [len(sp) <= len(iqp) <= len(centerline)]. *)
Theorem C10_length_order (f : string -> option R) (file_lines : list string) :
  let '(cl, iqp, sp) := load_marina_csv f file_lines in
  List.length sp <= List.length iqp <= List.length cl.
Proof.
  unfold load_marina_csv. apply convert_rows_lengths. simpl. lia.
Qed.

(** Column [k] of the index row holds the number [column_mapping k]. *)
Lemma index_row_column (k : col_key) :
  column_value dec_float (index_row 46) k = Some (INR (column_mapping k)).
Proof. destruct k; reflexivity. Qed.

Lemma index_row_column_inv (k : col_key) (c : nat) :
  column_value dec_float (index_row 46) k = Some (INR c) -> column_mapping k = c.
Proof.
  rewrite index_row_column. intros H. injection H as H. apply INR_eq in H. exact H.
Qed.

(** C3: on the index row, the IQP waypoint has [x_m] from column 0 (raw
    racing line) and [s_m] from column 11 (reference racing line), so no
    single column group provides all its geometric fields. *)
Lemma C3_iqp_mixed_frames_counterexample :
  (exists wp, create_iqp_waypoint dec_float (index_row 46) 0 1 = Some wp /\
              x_m wp = INR 0 /\ s_m wp = INR 11) /\
  ~ C3_claim.
Proof.
  split.
  - eexists. split; [reflexivity|]. split; reflexivity.
  - intros H.
    destruct (H dec_float Iqp (index_row 46) 0 _ eq_refl) as [g Hg].
    destruct (Hg F_x) as [kx [Hgx Hx]].
    destruct (Hg F_s) as [ks [Hgs Hs]].
    apply (index_row_column_inv kx 0) in Hx.
    apply (index_row_column_inv ks 11) in Hs.
    destruct kx; try discriminate Hx.
    destruct ks; try discriminate Hs.
    simpl in Hgx, Hgs. subst g. discriminate Hgs.
Qed.

(** C3 (amended): every geometric field of a waypoint is the value of the
    column [field_key v gf]; its group is [field_group v gf]: the centerline
    waypoint reads only reference-centerline columns, the SP waypoint only
    reference-racing-line columns, and the IQP waypoint reads x, y and psi
    from the raw racing line and s, kappa, d_left and d_right from the
    reference racing line. *)
Theorem C3_field_provenance (f : string -> option R) (v : variant)
  (values : list string) (n : nat) (wp : waypoint)
  (H : create_waypoint f v values n = Some wp) :
  forall gf : geo_field,
    column_value f values (field_key v gf) = Some (geo_value gf wp) /\
    key_group (field_key v gf) = field_group v gf.
Proof.
  intros gf.
  destruct v; simpl in H;
    [unfold create_centerline_waypoint in H
    |unfold create_iqp_waypoint in H
    |unfold create_sp_waypoint in H];
    peel_options; injection H as <-;
    destruct gf; simpl; split; (assumption || reflexivity).
Qed.

Lemma C3_field_provenance_witness :
  exists wp, create_waypoint dec_float Iqp (index_row 46) 0 = Some wp /\
  forall gf : geo_field,
    column_value dec_float (index_row 46) (field_key Iqp gf) = Some (geo_value gf wp) /\
    key_group (field_key Iqp gf) = field_group Iqp gf.
Proof.
  eexists. split; [reflexivity|].
  apply (C3_field_provenance dec_float Iqp (index_row 46) 0). reflexivity.
Defined.

Lemma enumerate_from_nth {A} (l : list A) (n i : nat) (x : A) :
  nth_error l i = Some x -> In (n + i, x) (enumerate_from n l).
Proof.
  revert n i; induction l as [|y r IH]; intros n i H; [destruct i; discriminate|].
  destruct i as [|i]; simpl in H.
  - injection H as <-. left. f_equal. lia.
  - right. replace (n + S i) with (S n + i) by lia. apply IH. exact H.
Qed.

(** C5: each sampled IQP waypoint yields a left marker at
    (x - d_left sin psi, y + d_left cos psi) and a right marker at
    (x + d_right sin psi, y - d_right cos psi); with psi = 0 and
    d_left = d_right = 2 these are (x, y + 2) and (x, y - 2). *)
Theorem C5_boundary_positions (wps : list waypoint) (i : nat) (wp : waypoint)
  (H : nth_error (slice_step (Nat.max 1 (List.length wps / 200)) wps) i = Some wp) :
  In (mk_marker "trackbounds_left" i 1
        (x_m wp - d_left wp * sin (psi_rad wp))
        (y_m wp + d_left wp * cos (psi_rad wp)) 0.1 trackbounds_color)
     (create_trackbounds_markers wps) /\
  In (mk_marker "trackbounds_right" (i + 1000) 1
        (x_m wp + d_right wp * sin (psi_rad wp))
        (y_m wp - d_right wp * cos (psi_rad wp)) 0.1 trackbounds_color)
     (create_trackbounds_markers wps) /\
  (psi_rad wp = 0%R -> d_left wp = 2%R -> d_right wp = 2%R ->
   In (mk_marker "trackbounds_left" i 1 (x_m wp) (y_m wp + 2) 0.1 trackbounds_color)
      (create_trackbounds_markers wps) /\
   In (mk_marker "trackbounds_right" (i + 1000) 1 (x_m wp) (y_m wp - 2) 0.1
         trackbounds_color)
      (create_trackbounds_markers wps)).
Proof.
  assert (Hin : In (i, wp) (enumerate_from 0
                  (slice_step (Nat.max 1 (List.length wps / 200)) wps)))
    by exact (enumerate_from_nth _ 0 i wp H).
  assert (HL : In (mk_marker "trackbounds_left" i 1
        (x_m wp - d_left wp * sin (psi_rad wp))
        (y_m wp + d_left wp * cos (psi_rad wp)) 0.1 trackbounds_color)
     (create_trackbounds_markers wps)).
  { apply in_flat_map. exists Left. split; [left; reflexivity|].
    apply in_map_iff. exists (i, wp). split; [|exact Hin].
    simpl. f_equal; ring. }
  assert (HR : In (mk_marker "trackbounds_right" (i + 1000) 1
        (x_m wp + d_right wp * sin (psi_rad wp))
        (y_m wp - d_right wp * cos (psi_rad wp)) 0.1 trackbounds_color)
     (create_trackbounds_markers wps)).
  { apply in_flat_map. exists Right. split; [right; left; reflexivity|].
    apply in_map_iff. exists (i, wp). split; [|exact Hin].
    simpl. f_equal; ring. }
  split; [exact HL|]. split; [exact HR|].
  intros Hp Hl Hr. rewrite Hp, Hl, sin_0, cos_0 in HL. rewrite Hp, Hr, sin_0, cos_0 in HR.
  split.
  - replace (x_m wp) with (x_m wp - 2 * 0)%R at 1 by ring.
    replace (y_m wp + 2)%R with (y_m wp + 2 * 1)%R by ring. exact HL.
  - replace (x_m wp) with (x_m wp + 2 * 0)%R at 1 by ring.
    replace (y_m wp - 2)%R with (y_m wp - 2 * 1)%R by ring. exact HR.
Qed.

Lemma C5_boundary_positions_witness :
  nth_error (slice_step (Nat.max 1 (List.length [mk_waypoint 0 0 0 3 4 2 2 0 0 0 0] / 200))
                        [mk_waypoint 0 0 0 3 4 2 2 0 0 0 0]) 0
    = Some (mk_waypoint 0 0 0 3 4 2 2 0 0 0 0) /\
  In (mk_marker "trackbounds_left" 0 1 3 (4 + 2) 0.1 trackbounds_color)
     (create_trackbounds_markers [mk_waypoint 0 0 0 3 4 2 2 0 0 0 0]) /\
  In (mk_marker "trackbounds_right" (0 + 1000) 1 3 (4 - 2) 0.1 trackbounds_color)
     (create_trackbounds_markers [mk_waypoint 0 0 0 3 4 2 2 0 0 0 0]).
Proof.
  split; [reflexivity|].
  refine (proj2 (proj2 (C5_boundary_positions [mk_waypoint 0 0 0 3 4 2 2 0 0 0 0] 0
                          (mk_waypoint 0 0 0 3 4 2 2 0 0 0 0) eq_refl))
                eq_refl eq_refl eq_refl).
Defined.

(** C6 as stated fails at four waypoints: the sectors are [0, 2] and [3, 3]. *)
Lemma C6_unequal_sectors_counterexample : ~ C6_claim.
Proof.
  intros H.
  destruct (H (repeat wp_zero 4) ltac:(simpl; lia)) as (e0 & s1 & e1 & H0 & H1 & _ & _ & Heq).
  vm_compute in H0, H1.
  injection H0 as <-. injection H1 as <- <-.
  vm_compute in Heq. discriminate Heq.
Qed.

(** C6 (amended): for N >= 1 waypoints the overtaking document has two
    sectors, [0, N/2] and [N/2 + 1, N - 1] (integer division), both with
    [ot_flag] false; they are disjoint and together cover [0, N - 1]; the
    first is larger than the second by 2 when N is even and by 1 when N is
    odd. *)
Theorem C6_ot_sectors (wps : list waypoint) (H : 1 <= List.length wps) :
  let N := Z.of_nat (List.length wps) in
  let doc := create_ot_sectors_yaml wps in
  json_int doc "n_sectors"%string = Some 2%Z /\
  ot_sector doc "Overtaking_sector0"%string = Some (0%Z, (N / 2)%Z, false) /\
  ot_sector doc "Overtaking_sector1"%string = Some ((N / 2 + 1)%Z, (N - 1)%Z, false) /\
  (forall i : Z, (0 <= i <= N - 1)%Z <->
                 (0 <= i <= N / 2)%Z \/ (N / 2 + 1 <= i <= N - 1)%Z) /\
  (forall i : Z, ~ ((0 <= i <= N / 2)%Z /\ (N / 2 + 1 <= i <= N - 1)%Z)) /\
  ((N / 2 - 0 + 1) - ((N - 1) - (N / 2 + 1) + 1) = 2 - N mod 2)%Z.
Proof.
  intros N doc.
  assert (HN : (1 <= N)%Z) by (unfold N; lia).
  pose proof (Z.div_mod N 2 ltac:(lia)) as Hdm.
  pose proof (Z.mod_pos_bound N 2 ltac:(lia)) as Hmb.
  split; [reflexivity|]. split; [reflexivity|]. split; [reflexivity|].
  split; [intros i; lia|]. split; [intros i; lia|]. lia.
Qed.

Lemma C6_ot_sectors_witness :
  1 <= List.length (repeat wp_zero 5) /\
  ot_sector (create_ot_sectors_yaml (repeat wp_zero 5)) "Overtaking_sector0"%string
    = Some (0%Z, (Z.of_nat (List.length (repeat wp_zero 5)) / 2)%Z, false).
Proof.
  assert (H : 1 <= List.length (repeat wp_zero 5)) by (simpl; lia).
  split; [exact H|].
  exact (proj1 (proj2 (C6_ot_sectors (repeat wp_zero 5) H))).
Defined.

(** C7: reading the [wpnts] list of a waypoint array back gives, in order,
    the [x_m], [y_m], [vx_mps] and [s_m] of the waypoints it was built from. *)
Theorem C7_waypoint_array_roundtrip (wps : list waypoint) :
  exists l, wpnts_of (create_waypoint_array wps) = Some l /\
    map plotted_fields l =
    map (fun wp => (Some (x_m wp), Some (y_m wp), Some (vx_mps wp), Some (s_m wp))) wps.
Proof.
  exists (map wpnt_msg wps). split; [reflexivity|].
  rewrite map_map. apply map_ext. intros wp. reflexivity.
Qed.

(** The whole document: the plotting utility finds the three arrays under
    the keys it reads. *)
Lemma load_global_waypoints (cl iqp sp : list waypoint) (doc : json) :
  create_global_waypoints_json cl iqp sp = Some doc ->
  load_waypoints_data doc = Some (map wpnt_msg cl, map wpnt_msg iqp, map wpnt_msg sp).
Proof.
  unfold create_global_waypoints_json.
  destruct (py_max (map vx_mps iqp)); [|discriminate].
  destruct (py_max (map vx_mps sp)); [|discriminate].
  intros H. injection H as <-. reflexivity.
Qed.

Lemma filter_fst_combine_length {A B} (P : A -> bool) (xs : list A) (ys : list B) :
  List.length xs = List.length ys ->
  List.length (filter (fun p => P (fst p)) (combine xs ys)) = List.length (filter P xs).
Proof.
  revert ys; induction xs as [|x xs IH]; intros [|y ys] Hlen; simpl in *;
    try discriminate; [reflexivity|].
  destruct (P x); simpl; rewrite IH by lia; reflexivity.
Qed.

Lemma div_ceil_step (k N : nat) :
  0 < k ->
  (N + S k - 1) / k = (N + k - 1) / k + (if Nat.eqb (N mod k) 0 then 1 else 0).
Proof.
  intros Hk.
  pose proof (Nat.div_mod_eq N k) as Hdm.
  pose proof (Nat.mod_upper_bound N k ltac:(lia)) as Hmb.
  set (q := N / k) in *. set (r := N mod k) in *.
  destruct (Nat.eqb_spec r 0) as [Hr|Hr].
  - rewrite <- (Nat.div_unique (N + S k - 1) k (q + 1) 0) by nia.
    rewrite <- (Nat.div_unique (N + k - 1) k q (k - 1)) by nia.
    lia.
  - rewrite <- (Nat.div_unique (N + S k - 1) k (q + 1) r) by nia.
    rewrite <- (Nat.div_unique (N + k - 1) k (q + 1) (r - 1)) by nia.
    lia.
Qed.

(** Python's [len(range(0, N, k))]. *)
Lemma count_multiples (k N : nat) :
  0 < k ->
  List.length (filter (fun i => Nat.eqb (i mod k) 0) (seq 0 N)) = (N + k - 1) / k.
Proof.
  intros Hk. induction N as [|N IH].
  - simpl. rewrite Nat.div_small by lia. reflexivity.
  - rewrite seq_S, filter_app, length_app, IH. simpl.
    replace (N + k - 0) with (N + S k - 1) by lia.
    rewrite (div_ceil_step k N Hk).
    destruct (Nat.eqb (N mod k) 0); simpl; lia.
Qed.

Lemma slice_step_length {A} (k : nat) (l : list A) :
  0 < k -> List.length (slice_step k l) = (List.length l + k - 1) / k.
Proof.
  intros Hk. unfold slice_step. rewrite length_map.
  rewrite (filter_fst_combine_length (fun i => Nat.eqb (i mod k) 0)) by apply length_seq.
  apply count_multiples. exact Hk.
Qed.

Lemma enumerate_from_in {A} (l : list A) (n i : nat) (x : A) :
  In (i, x) (enumerate_from n l) -> n <= i < n + List.length l.
Proof.
  revert n; induction l as [|y r IH]; intros n H; simpl in H; [contradiction|].
  destruct H as [H|H].
  - injection H as <- <-. simpl. lia.
  - apply IH in H. simpl. lia.
Qed.

Lemma side_markers_in (k : nat) (wps : list waypoint) (sd : side) (m : marker) :
  In m (side_markers k wps sd) ->
  m_ns m = ("trackbounds_" ++ side_name sd)%string /\
  exists i, i < List.length (slice_step k wps) /\
    m_id m = match sd with Left => i | Right => i + 1000 end.
Proof.
  unfold side_markers. rewrite in_map_iff. intros [[i wp] [Hm Hin]].
  apply enumerate_from_in in Hin. simpl in Hm.
  destruct (boundary_position sd wp) as [bx by_]. subst m. simpl.
  split; [reflexivity|]. exists i. split; [lia|reflexivity].
Qed.

Lemma trackbounds_sample_bound (wps : list waypoint) :
  List.length (slice_step (Nat.max 1 (List.length wps / 200)) wps) < 401.
Proof.
  set (N := List.length wps).
  set (k := Nat.max 1 (N / 200)).
  assert (Hk1 : 1 <= k) by (unfold k; lia).
  assert (Hkq : N / 200 <= k) by (unfold k; lia).
  rewrite slice_step_length by lia. fold N.
  pose proof (Nat.div_mod_eq N 200) as Hdm.
  pose proof (Nat.mod_upper_bound N 200 ltac:(lia)) as Hmb.
  pose proof (Nat.div_mod_eq (N + k - 1) k) as Hdm2.
  set (M := (N + k - 1) / k) in *.
  nia.
Qed.

(** C8: at most 400 waypoints are sampled per side, so the left ids
    [0 .. M-1] and the right ids [1000 .. 1000+M-1] never meet. *)
Theorem C8_marker_ids_disjoint (wps : list waypoint) :
  List.length (slice_step (Nat.max 1 (List.length wps / 200)) wps) < 1000 /\
  forall m1 m2 : marker,
    In m1 (create_trackbounds_markers wps) ->
    In m2 (create_trackbounds_markers wps) ->
    m_ns m1 = "trackbounds_left"%string ->
    m_ns m2 = "trackbounds_right"%string ->
    m_id m1 <> m_id m2.
Proof.
  pose proof (trackbounds_sample_bound wps) as Hb.
  split; [lia|].
  intros m1 m2 H1 H2 Hn1 Hn2.
  unfold create_trackbounds_markers in H1, H2.
  apply in_flat_map in H1. destruct H1 as [sd1 [Hsd1 H1]].
  apply in_flat_map in H2. destruct H2 as [sd2 [Hsd2 H2]].
  apply side_markers_in in H1. destruct H1 as [Hns1 [i [Hi Hid1]]].
  apply side_markers_in in H2. destruct H2 as [Hns2 [j [Hj Hid2]]].
  destruct sd1; [|rewrite Hns1 in Hn1; discriminate Hn1].
  destruct sd2; [rewrite Hns2 in Hn2; discriminate Hn2|].
  rewrite Hid1, Hid2. lia.
Qed.

(** Whether a [create_*] call succeeds does not depend on the id it is given. *)
Ltac rebuild_options :=
  repeat match goal with
  | E : column_value ?f ?v ?k = Some _ |- context [column_value ?f ?v ?k] => rewrite E
  end; eexists; reflexivity.

Lemma create_centerline_any_id f values n m w :
  create_centerline_waypoint f values n = Some w ->
  exists w', create_centerline_waypoint f values m = Some w'.
Proof.
  unfold create_centerline_waypoint; intros H; peel_options; rebuild_options.
Qed.

Lemma create_iqp_any_id f values n m w :
  create_iqp_waypoint f values n 1 = Some w ->
  exists w', create_iqp_waypoint f values m 1 = Some w'.
Proof.
  unfold create_iqp_waypoint; intros H; peel_options; rebuild_options.
Qed.

Lemma create_sp_any_id f values n m w :
  create_sp_waypoint f values n = Some w ->
  exists w', create_sp_waypoint f values m = Some w'.
Proof.
  unfold create_sp_waypoint; intros H; peel_options; rebuild_options.
Qed.

(** The SP list only grows on rows that are valid. *)
Lemma convert_rows_sp_invalid (f : string -> option R) rows cl iqp sp :
  (forall values, In values rows -> row_valid f values = false) ->
  let '(_, _, sp') := convert_rows f rows cl iqp sp in sp' = sp.
Proof.
  revert cl iqp sp; induction rows as [|values rest IH]; intros cl iqp sp Hinv;
    simpl; [reflexivity|].
  assert (Hrest : forall v, In v rest -> row_valid f v = false)
    by (intros v Hv; apply Hinv; right; exact Hv).
  destruct (create_centerline_waypoint f values (List.length cl)) as [w1|] eqn:E1;
    [|apply IH; exact Hrest].
  destruct (create_iqp_waypoint f values (List.length iqp) 1) as [w2|] eqn:E2;
    [|apply IH; exact Hrest].
  destruct (create_sp_waypoint f values (List.length sp)) as [w3|] eqn:E3;
    [|apply IH; exact Hrest].
  exfalso.
  destruct (create_centerline_any_id f values _ 0 _ E1) as [w1' E1'].
  destruct (create_iqp_any_id f values _ 0 _ E2) as [w2' E2'].
  destruct (create_sp_any_id f values _ 0 _ E3) as [w3' E3'].
  specialize (Hinv values (or_introl eq_refl)).
  unfold row_valid in Hinv. rewrite E1', E2', E3' in Hinv. discriminate.
Qed.

(** C9: when no row of the file is valid, [main] exits with status 1,
    reports an error and writes no output document. *)
Theorem C9_empty_parse_fatal (f : string -> option R) (output_map_name : string)
  (file_lines : list string) (source_image_exists : bool)
  (Hnone : forall values, In values (map row_values (data_lines file_lines)) ->
                          row_valid f values = false) :
  let '(effs, code) := main f output_map_name true file_lines source_image_exists in
  code <> 0%Z /\ (forall path content, ~ In (Write_file path content) effs) /\
  In Report_error effs.
Proof.
  pose proof (convert_rows_sp_invalid f (map row_values (data_lines file_lines))
                [] [] [] Hnone) as Hsp.
  unfold main, parse, load_marina_csv. simpl negb. cbv iota beta.
  destruct (convert_rows f (map row_values (data_lines file_lines)) [] [] [])
    as [[cl iqp] sp].
  subst sp.
  destruct cl as [|w cl].
  - simpl. split; [discriminate|]. split; [intros p c [H|[]]; discriminate H|].
    left; reflexivity.
  - unfold create_global_waypoints_json.
    destruct (py_max (map vx_mps iqp)); simpl;
      (split; [discriminate|]; split;
       [intros p c [H|[H|[]]]; discriminate H | right; left; reflexivity]).
Qed.

Lemma C9_empty_parse_fatal_witness :
  (forall values, In values (map row_values (data_lines [bad_rl_x_line])) ->
                  row_valid dec_float values = false) /\
  (let '(effs, code) := main dec_float "marina" true [bad_rl_x_line] true in
   code <> 0%Z /\ (forall path content, ~ In (Write_file path content) effs) /\
   In Report_error effs).
Proof.
  assert (H : forall values, In values (map row_values (data_lines [bad_rl_x_line])) ->
                             row_valid dec_float values = false).
  { intros values Hin. vm_compute in Hin. destruct Hin as [<-|[]].
    vm_compute. reflexivity. }
  split; [exact H|].
  exact (C9_empty_parse_fatal dec_float "marina" [bad_rl_x_line] true H).
Defined.

(** ** Further properties of the converter and the plotting utility *)

Lemma string_app_assoc (a b c : string) : ((a ++ b) ++ c = a ++ (b ++ c))%string.
Proof. induction a as [|x a IH]; simpl; [reflexivity|rewrite IH; reflexivity]. Qed.

Lemma string_app_nil_r (a : string) : (a ++ "" = a)%string.
Proof. induction a as [|x a IH]; simpl; [reflexivity|rewrite IH; reflexivity]. Qed.

Lemma rev_str_acc (s acc : string) : rev_str s acc = (rev_str s "" ++ acc)%string.
Proof.
  revert acc; induction s as [|c r IH]; intros acc; simpl; [reflexivity|].
  rewrite (IH (String c acc)), (IH (String c "")), string_app_assoc. reflexivity.
Qed.

Lemma split_aux_cons (sep : ascii) (s cur : string) :
  exists f rest, split_aux sep s cur = f :: rest.
Proof.
  revert cur; induction s as [|c r IH]; intros cur; simpl; [eauto|].
  destruct (Ascii.eqb c sep); eauto.
Qed.

Lemma split_aux_join (sep : ascii) (s cur : string) :
  join sep (split_aux sep s cur) = (rev_str cur "" ++ s)%string.
Proof.
  revert cur; induction s as [|c r IH]; intros cur; simpl.
  - rewrite string_app_nil_r. reflexivity.
  - destruct (Ascii.eqb_spec c sep) as [->|Hne].
    + destruct (split_aux_cons sep r "") as [f [rest Hsp]].
      change (join sep (rev_str cur "" :: split_aux sep r "") =
              (rev_str cur "" ++ String sep r)%string).
      assert (Hj : join sep (rev_str cur "" :: split_aux sep r "") =
                   (rev_str cur "" ++ String sep (join sep (split_aux sep r "")))%string)
        by (rewrite Hsp; reflexivity).
      rewrite Hj, IH. reflexivity.
    + rewrite IH. change (rev_str (String c cur) "") with (rev_str cur (String c "")).
      rewrite (rev_str_acc cur (String c "")), string_app_assoc. reflexivity.
Qed.

Lemma split_aux_length (sep : ascii) (s cur : string) :
  List.length (split_aux sep s cur) = S (count_char sep s).
Proof.
  revert cur; induction s as [|c r IH]; intros cur; simpl; [reflexivity|].
  destruct (Ascii.eqb c sep); simpl; rewrite IH; reflexivity.
Qed.

(** [line.split(',')] loses nothing: joining the fields with the separator
    gives the line back, and there is one field more than separators. *)
Theorem split_join_roundtrip (sep : ascii) (s : string) :
  join sep (split sep s) = s /\ List.length (split sep s) = S (count_char sep s).
Proof.
  unfold split. split; [apply split_aux_join|apply split_aux_length].
Qed.

Lemma enumerate_from_fst {A} (l : list A) (n : nat) :
  map fst (enumerate_from n l) = seq n (List.length l).
Proof.
  revert n; induction l as [|x r IH]; intros n; simpl; [reflexivity|].
  rewrite IH. reflexivity.
Qed.

Lemma enumerate_from_in_list {A} (l : list A) (n i : nat) (x : A) :
  In (i, x) (enumerate_from n l) -> In x l.
Proof.
  revert n; induction l as [|y r IH]; intros n H; simpl in H; [contradiction|].
  destruct H as [H|H]; [injection H as _ <-; left; reflexivity|right; eapply IH; exact H].
Qed.

Lemma slice_step_in {A} (k : nat) (l : list A) (x : A) :
  In x (slice_step k l) -> In x l.
Proof.
  unfold slice_step. rewrite in_map_iff. intros [[i y] [Hy Hin]].
  simpl in Hy. subst y. apply filter_In in Hin. destruct Hin as [Hin _].
  apply in_combine_r in Hin. exact Hin.
Qed.

(** [create_waypoint_markers]: at most 999 markers (the stride is
    [max(1, N // 500)]), numbered [0 .. M-1], each placed at the [(x, y)] of
    a waypoint of the trajectory. *)
Theorem waypoint_markers_shape (waypoints : list waypoint) (c : color) :
  let ms := create_waypoint_markers waypoints c in
  let k := Nat.max 1 (List.length waypoints / 500) in
  List.length ms = (List.length waypoints + k - 1) / k /\
  List.length ms < 1000 /\
  map m_id ms = seq 0 (List.length ms) /\
  (forall m, In m ms -> exists wp, In wp waypoints /\ m_x m = x_m wp /\ m_y m = y_m wp).
Proof.
  intros ms k.
  assert (Hk : 0 < k) by (unfold k; lia).
  assert (Hlen : List.length ms = (List.length waypoints + k - 1) / k).
  { unfold ms, create_waypoint_markers. fold k.
    rewrite length_map.
    assert (E : forall A (l : list A) n, List.length (enumerate_from n l) = List.length l).
    { intros A l; induction l as [|x r IH]; intros n; simpl; [reflexivity|rewrite IH; reflexivity]. }
    rewrite E. apply slice_step_length. exact Hk. }
  split; [exact Hlen|]. split.
  - rewrite Hlen.
    set (N := List.length waypoints) in *.
    pose proof (Nat.div_mod_eq N 500) as Hdm.
    pose proof (Nat.mod_upper_bound N 500 ltac:(lia)) as Hmb.
    pose proof (Nat.div_mod_eq (N + k - 1) k) as Hdm2.
    set (M := (N + k - 1) / k) in *.
    assert (Hk1 : 1 <= k) by lia.
    assert (Hkq : N / 500 <= k) by (unfold k; lia).
    destruct (Nat.eq_dec k 1) as [E1|E1].
    + assert (N / 500 <= 1) by lia. rewrite E1 in Hdm2. nia.
    + assert (k = N / 500) by (unfold k in *; lia). nia.
  - split.
    + rewrite Hlen. unfold ms, create_waypoint_markers. fold k.
      rewrite map_map.
      transitivity (map fst (enumerate_from 0 (slice_step k waypoints))).
      { apply map_ext. intros p. reflexivity. }
      rewrite enumerate_from_fst, slice_step_length by exact Hk. reflexivity.
    + intros m Hm. unfold ms, create_waypoint_markers in Hm. apply in_map_iff in Hm.
      destruct Hm as [[i wp] [<- Hin]].
      exists wp. split; [|split; reflexivity].
      apply enumerate_from_in_list in Hin. eapply slice_step_in. exact Hin.
Qed.

Lemma enumerate_from_length {A} (l : list A) (n : nat) :
  List.length (enumerate_from n l) = List.length l.
Proof.
  revert n; induction l as [|x r IH]; intros n; simpl; [reflexivity|rewrite IH; reflexivity].
Qed.

(** [create_trackbounds_markers]: with [M] sampled waypoints the list holds
    [2 M] markers, the left ones first with ids [0 .. M-1], then the right
    ones with ids [1000 .. 1000+M-1]. *)
Theorem trackbounds_markers_layout (waypoints : list waypoint) :
  let M := List.length (slice_step (Nat.max 1 (List.length waypoints / 200)) waypoints) in
  List.length (create_trackbounds_markers waypoints) = 2 * M /\
  map m_id (create_trackbounds_markers waypoints) =
    seq 0 M ++ map (fun i => i + 1000) (seq 0 M) /\
  map m_ns (create_trackbounds_markers waypoints) =
    repeat "trackbounds_left"%string M ++ repeat "trackbounds_right"%string M.
Proof.
  intros M.
  set (k := Nat.max 1 (List.length waypoints / 200)) in *.
  assert (Hid : forall sd, map m_id (side_markers k waypoints sd) =
            map (fun i => match sd with Left => i | Right => i + 1000 end) (seq 0 M)).
  { intros sd. unfold side_markers. rewrite map_map.
    unfold M. rewrite <- (enumerate_from_fst (slice_step k waypoints) 0), map_map.
    apply map_ext. intros [i wp]. simpl.
    destruct (boundary_position sd wp). reflexivity. }
  assert (Hns : forall sd, map m_ns (side_markers k waypoints sd) =
            repeat ("trackbounds_" ++ side_name sd)%string M).
  { intros sd. unfold side_markers. rewrite map_map.
    transitivity (map (fun _ => ("trackbounds_" ++ side_name sd)%string)
                      (enumerate_from 0 (slice_step k waypoints))).
    { apply map_ext. intros [i wp]. simpl. destruct (boundary_position sd wp). reflexivity. }
    rewrite map_const, enumerate_from_length. reflexivity. }
  assert (Hlen : forall sd, List.length (side_markers k waypoints sd) = M).
  { intros sd. unfold side_markers. rewrite length_map, enumerate_from_length. reflexivity. }
  unfold create_trackbounds_markers. fold k. simpl. rewrite app_nil_r.
  split; [rewrite length_app, !Hlen; lia|].
  split; [rewrite map_app, !Hid, map_id; reflexivity|].
  rewrite map_app, !Hns. reflexivity.
Qed.

Lemma extract_markers_of_side (f : string -> option R) (sd : side) (ms : list marker)
  (rest : list json) (lx ly rx ry : list R) :
  Forall (fun m => m_ns m = ("trackbounds_" ++ side_name sd)%string) ms ->
  extract_trackbounds_loop f (map marker_json ms ++ rest) lx ly rx ry =
  match sd with
  | Left => extract_trackbounds_loop f rest (lx ++ map m_x ms) (ly ++ map m_y ms) rx ry
  | Right => extract_trackbounds_loop f rest lx ly (rx ++ map m_x ms) (ry ++ map m_y ms)
  end.
Proof.
  revert lx ly rx ry; induction ms as [|m ms IH]; intros lx ly rx ry Hall.
  - simpl. destruct sd; rewrite !app_nil_r; reflexivity.
  - inversion Hall as [|? ? Hm Hrest]; subst.
    destruct m as [ns mid ty x y sc c]. simpl in Hm. subst ns.
    destruct sd; simpl; rewrite IH by exact Hrest; rewrite <- !app_assoc; reflexivity.
Qed.

Lemma side_markers_ns (k : nat) (wps : list waypoint) (sd : side) :
  Forall (fun m => m_ns m = ("trackbounds_" ++ side_name sd)%string)
         (side_markers k wps sd).
Proof.
  apply Forall_forall. intros m Hm. apply side_markers_in in Hm. apply Hm.
Qed.

Lemma side_markers_xy (k : nat) (wps : list waypoint) (sd : side) :
  map m_x (side_markers k wps sd) =
    map (fun wp => fst (boundary_position sd wp)) (slice_step k wps) /\
  map m_y (side_markers k wps sd) =
    map (fun wp => snd (boundary_position sd wp)) (slice_step k wps).
Proof.
  unfold side_markers. rewrite !map_map.
  set (S := slice_step k wps).
  assert (HS : S = map snd (enumerate_from 0 S)).
  { generalize 0. induction S as [|x r IH]; intros n; simpl;
      [reflexivity|rewrite <- IH; reflexivity]. }
  rewrite HS at 2 4. rewrite !map_map.
  split; apply map_ext; intros [i wp]; simpl; destruct (boundary_position sd wp); reflexivity.
Qed.

(** [extract_trackbounds_coordinates] of [plot_raceline.py] applied to the
    markers written by [create_trackbounds_markers] gives back exactly the
    left and right boundary points of the sampled waypoints, in order. *)
Theorem trackbounds_extract_roundtrip (f : string -> option R) (wps : list waypoint) :
  let S := slice_step (Nat.max 1 (List.length wps / 200)) wps in
  extract_trackbounds_coordinates f (map marker_json (create_trackbounds_markers wps)) =
  (map (fun wp => fst (boundary_position Left wp)) S,
   map (fun wp => snd (boundary_position Left wp)) S,
   map (fun wp => fst (boundary_position Right wp)) S,
   map (fun wp => snd (boundary_position Right wp)) S).
Proof.
  intros S. unfold extract_trackbounds_coordinates, create_trackbounds_markers.
  set (k := Nat.max 1 (List.length wps / 200)) in *. clearbody k.
  simpl flat_map. rewrite app_nil_r, map_app.
  rewrite (extract_markers_of_side f Left) by apply side_markers_ns.
  rewrite <- (app_nil_r (map marker_json (side_markers k wps Right))).
  rewrite (extract_markers_of_side f Right) by apply side_markers_ns.
  destruct (side_markers_xy k wps Left) as [HLx HLy].
  destruct (side_markers_xy k wps Right) as [HRx HRy].
  simpl. rewrite HLx, HLy, HRx, HRy. reflexivity.
Qed.

Lemma fold_Rmin_spec (l : list R) (a : R) :
  (In (fold_left Rmin l a) (a :: l)) /\
  (forall x, In x (a :: l) -> (fold_left Rmin l a <= x)%R).
Proof.
  revert a; induction l as [|b r IH]; intros a; cbn [fold_left].
  - split; [left; reflexivity|intros x [<-|[]]; lra].
  - destruct (IH (Rmin a b)) as [Hin Hlb]. split.
    + destruct Hin as [Hin|Hin]; [|right; right; exact Hin].
      rewrite <- Hin. unfold Rmin. destruct (Rle_dec a b); [left|right; left]; reflexivity.
    + intros x [<-|[<-|Hx]].
      * eapply Rle_trans; [apply Hlb; left; reflexivity|apply Rmin_l].
      * eapply Rle_trans; [apply Hlb; left; reflexivity|apply Rmin_r].
      * apply Hlb. right. exact Hx.
Qed.

Lemma py_min_spec (l : list R) (m : R) :
  py_min l = Some m -> In m l /\ forall x, In x l -> (m <= x)%R.
Proof.
  destruct l as [|a r]; simpl; [discriminate|]. intros H. injection H as <-.
  apply fold_Rmin_spec.
Qed.

(** [create_global_waypoints_json] raises ([max] of an empty sequence)
    whenever the IQP or the SP trajectory is empty, and the centerline never
    decides whether it raises: it only goes through [create_waypoint_array]
    and [create_waypoint_markers]. *)
Theorem create_global_waypoints_json_empty (cl cl' iqp sp : list waypoint) :
  (iqp = [] \/ sp = [] -> create_global_waypoints_json cl iqp sp = None) /\
  is_some (create_global_waypoints_json cl iqp sp) =
  is_some (create_global_waypoints_json cl' iqp sp).
Proof.
  unfold create_global_waypoints_json. split.
  - intros [->| ->]; [reflexivity|].
    destruct (py_max (map vx_mps iqp)); reflexivity.
  - destruct (py_max (map vx_mps iqp)); [|reflexivity].
    destruct (py_max (map vx_mps sp)); reflexivity.
Qed.

(** [create_map_yaml] raises exactly on an empty centerline. *)
Theorem create_map_yaml_none (name : string) (wps : list waypoint) :
  create_map_yaml name wps = None <-> wps = [].
Proof.
  unfold create_map_yaml. destruct wps as [|w wps]; simpl; split; intros H;
    try reflexivity; discriminate.
Qed.

(** The map document points at [name.png] and its origin is
    [[x - 5.0, y - 5.0, 0]] for the x of a centerline waypoint and the y of
    a centerline waypoint ([min] returns an element of its argument). *)
Theorem create_map_yaml_origin_attained (name : string) (wps : list waypoint)
  (doc : json) :
  create_map_yaml name wps = Some doc ->
  exists w1 w2, In w1 wps /\ In w2 wps /\
    json_get doc "origin"%string =
      Some (JArr [JNum (x_m w1 - 5.0); JNum (y_m w2 - 5.0); JInt 0]) /\
    json_get doc "image"%string = Some (JStr (name ++ ".png")).
Proof.
  unfold create_map_yaml.
  destruct (py_min (map x_m wps)) as [mx|] eqn:Ex; [|discriminate].
  destruct (py_max (map x_m wps)); [|discriminate].
  destruct (py_min (map y_m wps)) as [my|] eqn:Ey; [|discriminate].
  destruct (py_max (map y_m wps)); [|discriminate].
  intros H. injection H as <-.
  apply py_min_spec in Ex as [Hx _]. apply py_min_spec in Ey as [Hy _].
  apply in_map_iff in Hx as [w1 [<- Hw1]]. apply in_map_iff in Hy as [w2 [<- Hw2]].
  exists w1, w2. split; [exact Hw1|]. split; [exact Hw2|].
  split; reflexivity.
Qed.

Lemma create_map_yaml_origin_attained_witness :
  exists doc,
  create_map_yaml "marina" [mk_waypoint 0 0 0 3 4 0 0 0 0 0 0; wp_zero] = Some doc /\
  exists w1 w2, In w1 [mk_waypoint 0 0 0 3 4 0 0 0 0 0 0; wp_zero] /\
    In w2 [mk_waypoint 0 0 0 3 4 0 0 0 0 0 0; wp_zero] /\
    json_get doc "origin"%string =
      Some (JArr [JNum (x_m w1 - 5.0); JNum (y_m w2 - 5.0); JInt 0]) /\
    json_get doc "image"%string = Some (JStr ("marina" ++ ".png")).
Proof.
  eexists. split; [reflexivity|].
  apply (create_map_yaml_origin_attained "marina"
           [mk_waypoint 0 0 0 3 4 0 0 0 0 0 0; wp_zero]).
  reflexivity.
Defined.

Lemma create_centerline_is_some f values n :
  is_some (create_centerline_waypoint f values n) =
  is_some (create_centerline_waypoint f values 0).
Proof.
  destruct (create_centerline_waypoint f values n) as [w|] eqn:E;
  destruct (create_centerline_waypoint f values 0) as [w0|] eqn:E0; try reflexivity.
  - destruct (create_centerline_any_id f values n 0 w E) as [w' E']. congruence.
  - destruct (create_centerline_any_id f values 0 n w0 E0) as [w' E']. congruence.
Qed.

Lemma create_iqp_is_some f values n :
  is_some (create_iqp_waypoint f values n 1) = is_some (create_iqp_waypoint f values 0 1).
Proof.
  destruct (create_iqp_waypoint f values n 1) as [w|] eqn:E;
  destruct (create_iqp_waypoint f values 0 1) as [w0|] eqn:E0; try reflexivity.
  - destruct (create_iqp_any_id f values n 0 w E) as [w' E']. congruence.
  - destruct (create_iqp_any_id f values 0 n w0 E0) as [w' E']. congruence.
Qed.

Lemma create_sp_is_some f values n :
  is_some (create_sp_waypoint f values n) = is_some (create_sp_waypoint f values 0).
Proof.
  destruct (create_sp_waypoint f values n) as [w|] eqn:E;
  destruct (create_sp_waypoint f values 0) as [w0|] eqn:E0; try reflexivity.
  - destruct (create_sp_any_id f values n 0 w E) as [w' E']. congruence.
  - destruct (create_sp_any_id f values 0 n w0 E0) as [w' E']. congruence.
Qed.

Lemma row_valid_is_some f values :
  row_valid f values =
  is_some (create_centerline_waypoint f values 0) &&
  is_some (create_iqp_waypoint f values 0 1) &&
  is_some (create_sp_waypoint f values 0).
Proof.
  unfold row_valid.
  destruct (create_centerline_waypoint f values 0);
  destruct (create_iqp_waypoint f values 0 1);
  destruct (create_sp_waypoint f values 0); reflexivity.
Qed.

Lemma convert_rows_counts (f : string -> option R) rows cl iqp sp :
  let '(cl', iqp', sp') := convert_rows f rows cl iqp sp in
  List.length cl' = List.length cl +
    List.length (filter (fun v => is_some (create_centerline_waypoint f v 0)) rows) /\
  List.length iqp' = List.length iqp +
    List.length (filter (fun v => is_some (create_centerline_waypoint f v 0) &&
                                  is_some (create_iqp_waypoint f v 0 1)) rows) /\
  List.length sp' = List.length sp + List.length (filter (row_valid f) rows).
Proof.
  revert cl iqp sp; induction rows as [|v rest IH]; intros cl iqp sp.
  - simpl. lia.
  - cbn [convert_rows filter]. rewrite row_valid_is_some.
    rewrite <- (create_centerline_is_some f v (List.length cl)).
    rewrite <- (create_iqp_is_some f v (List.length iqp)).
    rewrite <- (create_sp_is_some f v (List.length sp)).
    destruct (create_centerline_waypoint f v (List.length cl)) as [w1|]; cbn [is_some andb].
    + destruct (create_iqp_waypoint f v (List.length iqp) 1) as [w2|]; cbn [is_some andb].
      * destruct (create_sp_waypoint f v (List.length sp)) as [w3|]; cbn [is_some andb].
        -- specialize (IH (cl ++ [w1]) (iqp ++ [w2]) (sp ++ [w3])).
           destruct (convert_rows f rest _ _ _) as [[a b] c].
           rewrite !length_app in IH. simpl in *. lia.
        -- specialize (IH (cl ++ [w1]) (iqp ++ [w2]) sp).
           destruct (convert_rows f rest _ _ _) as [[a b] c].
           rewrite !length_app in IH. simpl in *. lia.
      * specialize (IH (cl ++ [w1]) iqp sp).
        destruct (convert_rows f rest _ _ _) as [[a b] c].
        rewrite !length_app in IH. simpl in *. lia.
    + specialize (IH cl iqp sp).
      destruct (convert_rows f rest _ _ _) as [[a b] c]. exact IH.
Qed.

(** [load_marina_csv] keeps one centerline waypoint per data row whose
    centerline columns parse, one IQP waypoint per data row whose centerline
    and IQP columns parse, and one SP waypoint per row that is valid for all
    three. *)
Theorem load_marina_csv_counts (f : string -> option R) (file_lines : list string) :
  let rows := map row_values (data_lines file_lines) in
  let '(cl, iqp, sp) := load_marina_csv f file_lines in
  List.length cl =
    List.length (filter (fun v => is_some (create_centerline_waypoint f v 0)) rows) /\
  List.length iqp =
    List.length (filter (fun v => is_some (create_centerline_waypoint f v 0) &&
                                  is_some (create_iqp_waypoint f v 0 1)) rows) /\
  List.length sp = List.length (filter (row_valid f) rows).
Proof.
  intros rows. unfold load_marina_csv.
  pose proof (convert_rows_counts f rows [] [] []) as H. fold rows.
  destruct (convert_rows f rows [] [] []) as [[cl iqp] sp]. exact H.
Qed.

Lemma filter_length_exists {A} (p : A -> bool) (l : list A) :
  List.length (filter p l) <> 0 <-> exists x, In x l /\ p x = true.
Proof.
  split.
  - intros H. destruct (filter p l) as [|x r] eqn:E; [contradiction H; reflexivity|].
    exists x. apply filter_In. rewrite E. left; reflexivity.
  - intros [x Hx]. apply filter_In in Hx. intros H.
    destruct (filter p l); [destruct Hx|discriminate].
Qed.

(** When [main] exits with status 0 on an existing CSV file, some data row
    was valid for all three trajectories (the SP list is not empty, or [max]
    would have raised), and the run wrote exactly the four documents, in
    this order: [global_waypoints.json], [<name>.yaml], [ot_sectors.yaml],
    [speed_scaling.yaml]. *)
Theorem main_success_outputs (f : string -> option R) (name : string)
  (file_lines : list string) (source_image_exists : bool) (effs : list effect)
  (Hmain : main f name true file_lines source_image_exists = (effs, 0%Z)) :
  (exists values, In values (map row_values (data_lines file_lines)) /\
                  row_valid f values = true) /\
  written_paths effs =
    ["global_waypoints.json"; name ++ ".yaml"; "ot_sectors.yaml";
     "speed_scaling.yaml"]%string.
Proof.
  pose proof (convert_rows_counts f (map row_values (data_lines file_lines)) [] [] [])
    as Hc. cbn [List.length Nat.add] in Hc.
  unfold main, parse in Hmain. cbn [negb] in Hmain. unfold load_marina_csv in Hmain.
  set (rows := map row_values (data_lines file_lines)) in *.
  pose proof (convert_rows_lengths f rows [] [] [] ltac:(simpl; lia)) as Hl.
  pose proof (filter_length_exists (row_valid f) rows) as Hex.
  destruct (convert_rows f rows [] [] []) as [[cl iqp] sp].
  destruct Hc as [_ [_ Hsp]]. rewrite <- Hsp in Hex. clear Hsp.
  destruct cl as [|c cl]; [discriminate Hmain|].
  destruct iqp as [|i iqp]; destruct sp as [|s sp]; simpl in Hl; try lia;
    simpl in Hmain; try discriminate Hmain.
  injection Hmain as <-. split.
  - apply Hex. simpl. discriminate.
  - destruct source_image_exists; reflexivity.
Qed.

Lemma main_success_outputs_witness :
  exists effs,
    main dec_float "marina" true [ones_line; ones_line] true = (effs, 0%Z) /\
    (exists values, In values (map row_values (data_lines [ones_line; ones_line])) /\
                    row_valid dec_float values = true) /\
    written_paths effs =
      ["global_waypoints.json"; "marina" ++ ".yaml"; "ot_sectors.yaml";
       "speed_scaling.yaml"]%string.
Proof.
  destruct (main dec_float "marina" true [ones_line; ones_line] true) as [effs code] eqn:Hm.
  assert (Hc : snd (main dec_float "marina" true [ones_line; ones_line] true) = 0%Z)
    by (vm_compute; reflexivity).
  rewrite Hm in Hc. simpl in Hc. subst code.
  exists effs. split; [reflexivity|].
  exact (main_success_outputs dec_float "marina" [ones_line; ones_line] true effs Hm).
Defined.

(** End to end: when [main] exits with status 0, its second effect writes
    [global_waypoints.json], and [load_waypoints_data] of the plotting
    utility reads from that document exactly the waypoint messages of the
    three lists built by [load_marina_csv]. *)
Theorem main_output_roundtrip (f : string -> option R) (name : string)
  (file_lines : list string) (source_image_exists : bool)
  (cl iqp sp : list waypoint) (effs : list effect)
  (Hload : load_marina_csv f file_lines = (cl, iqp, sp))
  (Hmain : main f name true file_lines source_image_exists = (effs, 0%Z)) :
  exists doc,
    nth_error effs 1 = Some (Write_file "global_waypoints.json"%string doc) /\
    load_waypoints_data doc =
      Some (map wpnt_msg cl, map wpnt_msg iqp, map wpnt_msg sp).
Proof.
  unfold main, parse in Hmain. cbn [negb] in Hmain. rewrite Hload in Hmain.
  destruct cl as [|c cl]; [discriminate Hmain|].
  destruct (create_global_waypoints_json (c :: cl) iqp sp) as [gd|] eqn:Eg;
    [|discriminate Hmain].
  destruct (create_map_yaml name (c :: cl)) as [md|]; [|discriminate Hmain].
  injection Hmain as <-.
  exists gd. split; [reflexivity|].
  unfold create_global_waypoints_json in Eg.
  destruct (py_max (map vx_mps iqp)); [|discriminate].
  destruct (py_max (map vx_mps sp)); [|discriminate].
  injection Eg as <-. reflexivity.
Qed.

Lemma main_output_roundtrip_witness :
  exists cl iqp sp effs,
    load_marina_csv dec_float [ones_line; ones_line] = (cl, iqp, sp) /\
    main dec_float "marina" true [ones_line; ones_line] true = (effs, 0%Z) /\
    exists doc,
      nth_error effs 1 = Some (Write_file "global_waypoints.json"%string doc) /\
      load_waypoints_data doc =
        Some (map wpnt_msg cl, map wpnt_msg iqp, map wpnt_msg sp).
Proof.
  destruct (load_marina_csv dec_float [ones_line; ones_line]) as [[cl iqp] sp] eqn:Hl.
  destruct (main dec_float "marina" true [ones_line; ones_line] true) as [effs code] eqn:Hm.
  assert (Hc : snd (main dec_float "marina" true [ones_line; ones_line] true) = 0%Z)
    by (vm_compute; reflexivity).
  rewrite Hm in Hc. simpl in Hc. subst code.
  exists cl, iqp, sp, effs. split; [reflexivity|]. split; [reflexivity|].
  exact (main_output_roundtrip dec_float "marina" [ones_line; ones_line] true
           cl iqp sp effs Hl Hm).
Defined.

Lemma count_char_rev (c : ascii) (s acc : string) :
  count_char c (rev_str s acc) = count_char c s + count_char c acc.
Proof.
  revert acc; induction s as [|d r IH]; intros acc; simpl; [reflexivity|].
  rewrite IH. simpl. lia.
Qed.

Lemma split_aux_no_sep (sep : ascii) (s cur : string) :
  count_char sep cur = 0 ->
  Forall (fun fld => count_char sep fld = 0) (split_aux sep s cur).
Proof.
  revert cur; induction s as [|c r IH]; intros cur Hcur; simpl.
  - constructor; [rewrite count_char_rev; simpl; lia|constructor].
  - destruct (Ascii.eqb c sep) eqn:Ec.
    + constructor; [rewrite count_char_rev; simpl; lia|apply IH; reflexivity].
    + apply IH. simpl. rewrite Ec. exact Hcur.
Qed.

Lemma data_lines_app (l1 l2 : list string) :
  data_lines (l1 ++ l2) = data_lines l1 ++ data_lines l2.
Proof. unfold data_lines. rewrite map_app, filter_app. reflexivity. Qed.

(** C4 (amended): the file is processed line by line, in order: the data
    lines of [l1 ++ l2] are those of [l1] followed by those of [l2], and a
    single raw line gives either nothing or its stripped text, nothing
    exactly when the stripped line is empty, starts with '#', starts with
    "nan" or has no digit.  So every other line is kept, in order, as often
    as it occurs.  Each kept line becomes the whitespace-stripped fields of
    the comma-free pieces that join back to it with ','. *)
Theorem C4_row_filter :
  (forall l1 l2 : list string, data_lines (l1 ++ l2) = data_lines l1 ++ data_lines l2) /\
  (forall raw : string,
     (data_lines [raw] = [] \/ data_lines [raw] = [strip raw]) /\
     (data_lines [raw] = [] <->
      strip raw = ""%string \/ startswith "#" (strip raw) = true \/
      startswith "nan" (strip raw) = true \/ any_digit (strip raw) = false)) /\
  (forall (file_lines : list string) (line : string),
     In line (data_lines file_lines) ->
     exists fields : list string,
       join "," fields = line /\
       Forall (fun fld => count_char "," fld = 0) fields /\
       row_values line = map strip fields).
Proof.
  split; [exact data_lines_app|]. split.
  - intros raw. unfold data_lines. simpl.
    pose proof (keep_line_spec (strip raw)) as Hk.
    destruct (keep_line (strip raw)).
    + split; [right; reflexivity|]. split; [discriminate|].
      intros Hs. destruct (proj1 Hk eq_refl) as (H1 & H2 & H3 & H4).
      destruct Hs as [Hs|[Hs|[Hs|Hs]]]; congruence.
    + split; [left; reflexivity|]. split; [intros _|reflexivity].
      destruct (String.eqb_spec (strip raw) "") as [He|Hne]; [left; exact He|].
      destruct (startswith "#" (strip raw)) eqn:E1; [right; left; reflexivity|].
      destruct (startswith "nan" (strip raw)) eqn:E2; [right; right; left; reflexivity|].
      destruct (any_digit (strip raw)) eqn:E3; [|right; right; right; reflexivity].
      exfalso. assert (H : false = true) by (apply Hk; auto). discriminate.
  - intros file_lines line _. exists (split "," line). split; [|split].
    + unfold split. rewrite split_aux_join. reflexivity.
    + apply split_aux_no_sep. reflexivity.
    + reflexivity.
Qed.
